(** * gochef/cache: a cache facade over pluggable drivers, and its in-memory driver

    The development embeds the two Go files of the package:
    - [mem_cache.go]: [MemoryCacheItem], [MemoryCache] and its four methods;
    - the facade file: [Driver], [Config], [Cache], the package-level
      [drivers] registry, [New], [RegisterDriver] and the facade methods.

    Go values of type [interface{}] are a tagged union ([any]); [int64]
    quantities are integers with the wrap-around of the addition written
    out; the map of the driver is a finite map; the driver objects that
    facades point to live in a heap, so that two facades may alias one
    driver.  The [sync.RWMutex] embedded in [MemoryCache] has no effect on
    a sequential execution and is not represented. *)

From Stdlib Require Import ZArith Lia.
From stdpp Require Import base strings gmap.

Local Open Scope string_scope.
Local Open Scope Z_scope.

(** ** 64-bit signed integers *)

Module Int64.

Definition min : Z := - 2 ^ 63.
Definition max : Z := 2 ^ 63 - 1.

Definition in_range (z : Z) : Prop := min <= z <= max.

(** Two's complement reduction of a mathematical integer to [int64]. *)
Definition wrap (z : Z) : Z := (z + 2 ^ 63) mod 2 ^ 64 - 2 ^ 63.

(** Go's [+] on [int64]. *)
Definition add (a b : Z) : Z := wrap (a + b).

End Int64.

(** ** Dynamic values

    What an [interface{}] may hold: the nil interface, a [string], an [int],
    or a value of some other dynamic type, of which only the type name and
    an identity are kept. *)

Inductive any : Type :=
  | Nil
  | Str (s : string)
  | Int (n : Z)
  | Bool (b : bool)
  | Other (ty : string) (id : N).

(** [data.(string)] in its two-result form. *)
Definition assert_string (data : any) : string * bool :=
  match data with
  | Str s => (s, true)
  | _ => ("", false)
  end.

(** [data.(int)] in its two-result form. *)
Definition assert_int (data : any) : Z * bool :=
  match data with
  | Int n => (n, true)
  | _ => (0, false)
  end.

(** ** The in-memory driver (mem_cache.go) *)

Record MemoryCacheItem : Type := {
  value : any;
  expiresAt : Z
}.

Module MemoryCache.

(** [store map[string]*MemoryCacheItem]: [Put] is the only writer and it
    always stores a non-nil pointer, so a key is either absent or bound to
    an item. *)
Record t : Type := Build { store : gmap string MemoryCacheItem }.

(** The object built by [NewMemoryCache]. *)
Definition empty : t := {| store := ∅ |}.

Definition Get (m : t) (key : string) : any * bool :=
  match store m !! key with
  | Some data => (value data, true)
  | None => (Nil, false)
  end.

(** [now] is the result of [time.Now().Unix()]. *)
Definition Put (m : t) (key : string) (data : any) (duration : Z) (now : Z) : t :=
  let d :=
    if duration <? 1
    then {| value := data; expiresAt := 0 |}
    else {| value := data; expiresAt := Int64.add now duration |} in
  {| store := <[key := d]> (store m) |}.

Definition Remove (m : t) (key : string) : t :=
  {| store := delete key (store m) |}.

Definition Clear (m : t) : t :=
  {| store := ∅ |}.

End MemoryCache.

Global Instance MemoryCache_inhabited : Inhabited MemoryCache.t :=
  populate MemoryCache.empty.

(** ** The facade file: configuration, registry and facade *)

Module Config.

Record t : Type := Build {
  Driver : string;
  MaxSize : Z;
  Address : string;
  Username : string;
  Password : string;
  Use : bool
}.

End Config.

(** A non-nil [Driver] interface value is a reference to a driver object.
    [MemoryCache] is the one implementation of the interface in the
    package, so the heap holds [MemoryCache] objects. *)
Abbreviation Driver := positive (only parsing).

(** The state of the process that the package reads and writes: the driver
    objects, the package-level variable [drivers], and the reading of the
    system clock in seconds, which is what [time.Now().Unix()] returns. *)
Record State : Type := {
  heap : gmap positive MemoryCache.t;
  drivers : gmap string positive;
  clock : Z
}.

(** A call either returns or panics with a message. *)
Inductive Result (A : Type) : Type :=
  | Ok (a : A)
  | Panic (msg : string).

Arguments Ok {A} a.
Arguments Panic {A} msg.

(** [NewMemoryCache()] allocates a driver with an empty store. *)
Definition NewMemoryCache (s : State) : Driver * State :=
  let l := fresh (dom (heap s)) in
  (l, {| heap := <[l := MemoryCache.empty]> (heap s);
         drivers := drivers s;
         clock := clock s |}).

(** The state after package initialisation:
    [drivers = map[string]Driver{"memory": NewMemoryCache()}]. *)
Definition init (now : Z) : State :=
  let '(l, s) := NewMemoryCache {| heap := ∅; drivers := ∅; clock := now |} in
  {| heap := heap s; drivers := {[ "memory" := l ]}; clock := clock s |}.

(** The clock reads [t] from now on. *)
Definition set_clock (t : Z) (s : State) : State :=
  {| heap := heap s; drivers := drivers s; clock := t |}.

(** A [func() interface{}] closure: it returns a value and may, on its way,
    change anything in the state, the cache included. *)
Definition callback : Type := State -> any * State.

(** The state together with a count of the callback invocations so far,
    which no callback can reach. *)
Record World : Type := {
  st : State;
  calls : nat
}.

Definition invoke (cb : callback) (w : World) : any * World :=
  let '(data, s) := cb (st w) in
  (data, {| st := s; calls := S (calls w) |}).

Module Cache.

Record t : Type := Build {
  config : Config.t;
  driver : Driver
}.

(** The object behind [c.driver].  A reference held by a facade comes out
    of the registry and stays reachable; reading a reference that was never
    allocated gives a driver with an empty store. *)
Definition target (c : t) (s : State) : MemoryCache.t :=
  heap s !!! driver c.

(** A method of [c.driver] that mutates the driver in place. *)
Definition on_driver (c : t) (f : MemoryCache.t -> MemoryCache.t) (s : State) : State :=
  {| heap := <[driver c := f (target c s)]> (heap s);
     drivers := drivers s;
     clock := clock s |}.

Definition Get (c : t) (key : string) (s : State) : any * bool :=
  MemoryCache.Get (target c s) key.

Definition GetString (c : t) (key : string) (s : State) : string * bool :=
  let '(data, ok) := Get c key s in
  if negb ok then ("", false)
  else assert_string data.

Definition GetInt (c : t) (key : string) (s : State) : Z * bool :=
  let '(data, ok) := Get c key s in
  if negb ok then (0, false)
  else assert_int data.

Definition Put (c : t) (key : string) (data : any) (duration : Z) (s : State) : State :=
  on_driver c (fun m => MemoryCache.Put m key data duration (clock s)) s.

Definition PutForever (c : t) (key : string) (data : any) (s : State) : State :=
  on_driver c (fun m => MemoryCache.Put m key data 0 (clock s)) s.

Definition Remove (c : t) (key : string) (s : State) : State :=
  on_driver c (fun m => MemoryCache.Remove m key) s.

Definition Pull (c : t) (key : string) (s : State) : (any * bool) * State :=
  let r := MemoryCache.Get (target c s) key in
  (r, on_driver c (fun m => MemoryCache.Remove m key) s).

Definition PullString (c : t) (key : string) (s : State) : (string * bool) * State :=
  let r := GetString c key s in
  (r, on_driver c (fun m => MemoryCache.Remove m key) s).

Definition PullInt (c : t) (key : string) (s : State) : (Z * bool) * State :=
  let r := GetInt c key s in
  (r, on_driver c (fun m => MemoryCache.Remove m key) s).

Definition Remember (c : t) (key : string) (duration : Z) (cb : callback)
    (w : World) : any * World :=
  let '(data, ok) := Get c key (st w) in
  if ok then (data, w)
  else
    let '(data, w1) := invoke cb w in
    (data, {| st := Put c key data duration (st w1); calls := calls w1 |}).

Definition RememberForever (c : t) (key : string) (cb : callback)
    (w : World) : any * World :=
  Remember c key 0 cb w.

Definition Clear (c : t) (s : State) : State :=
  on_driver c MemoryCache.Clear s.

End Cache.

(** [New(cfg)]. *)
Definition New (cfg : Config.t) (s : State) : Result Cache.t :=
  match drivers s !! Config.Driver cfg with
  | Some driver => Ok {| Cache.config := cfg; Cache.driver := driver |}
  | None =>
      Panic ("cache: cache provider " +:+ Config.Driver cfg +:+ " is not registered")
  end.

(** [RegisterDriver(name, driver)]; [None] is the nil interface. *)
Definition RegisterDriver (name : string) (driver : option Driver) (s : State)
    : Result State :=
  match driver with
  | None => Panic "cache: driver is nil"
  | Some d =>
      match drivers s !! name with
      | Some _ => Panic ("cache: driver " +:+ name +:+ " is already registered")
      | None =>
          Ok {| heap := heap s; drivers := <[name := d]> (drivers s); clock := clock s |}
      end
  end.

(** ** Client programs

    A client of the package performs facade calls, each on a facade of its
    choice, while time passes.  Results of the calls are discarded here:
    a program is run for its effect on the state. *)

Inductive action : Type :=
  | AGet (key : string)
  | AGetString (key : string)
  | AGetInt (key : string)
  | APut (key : string) (data : any) (duration : Z)
  | APutForever (key : string) (data : any)
  | ARemove (key : string)
  | APull (key : string)
  | APullString (key : string)
  | APullInt (key : string)
  | AClear.

Inductive step : Type :=
  | Call (c : Cache.t) (a : action)
  | Sleep (t : Z).

Definition exec_action (c : Cache.t) (a : action) (s : State) : State :=
  match a with
  | AGet _ | AGetString _ | AGetInt _ => s
  | APut key data duration => Cache.Put c key data duration s
  | APutForever key data => Cache.PutForever c key data s
  | ARemove key => Cache.Remove c key s
  | APull key => snd (Cache.Pull c key s)
  | APullString key => snd (Cache.PullString c key s)
  | APullInt key => snd (Cache.PullInt c key s)
  | AClear => Cache.Clear c s
  end.

Definition exec_step (s : State) (x : step) : State :=
  match x with
  | Call c a => exec_action c a s
  | Sleep t => set_clock t s
  end.

Definition exec (prog : list step) (s : State) : State :=
  fold_left exec_step prog s.

(** Whether an action writes or deletes the entry of [key]: a [Put] or
    [PutForever] of that key, a [Remove] or a [Pull] of any type of that
    key, or a [Clear]. *)
Definition writes (key : string) (a : action) : bool :=
  match a with
  | AGet _ | AGetString _ | AGetInt _ => false
  | APut k _ _ | APutForever k _ => bool_decide (k = key)
  | ARemove k | APull k | APullString k | APullInt k => bool_decide (k = key)
  | AClear => true
  end.

(** Whether a step touches the entry of [key] in the driver at [l]. *)
Definition disturbs (l : Driver) (key : string) (x : step) : bool :=
  match x with
  | Call c a => bool_decide (Cache.driver c = l) && writes key a
  | Sleep _ => false
  end.

(** Whether a step is a call on a facade bound to the driver at [l]. *)
Definition reaches (l : Driver) (x : step) : bool :=
  match x with
  | Call c _ => bool_decide (Cache.driver c = l)
  | Sleep _ => false
  end.

(** Whether a step may delete an entry: a [Remove], a [Pull] of any type,
    or a [Clear]. *)
Definition deletes (x : step) : bool :=
  match x with
  | Call _ (ARemove _ | APull _ | APullString _ | APullInt _ | AClear) => true
  | _ => false
  end.

(** [sub] occurs in [s] as a contiguous substring. *)
Fixpoint contains (sub s : string) : bool :=
  String.prefix sub s ||
  match s with
  | EmptyString => false
  | String _ s' => contains sub s'
  end.

(** ** Histories of one driver

    The calls that reach one driver, each [Put] with the clock reading it
    obtained.  Beside the driver, a history is run on a ghost map that
    remembers, for every key, the clock reading of the [Put] that wrote its
    present entry; the driver itself keeps no such record. *)

Module History.

Inductive op : Type :=
  | Get (key : string)
  | Put (key : string) (data : any) (duration : Z) (now : Z)
  | Remove (key : string)
  | Clear.

Record tracked : Type := {
  cache : MemoryCache.t;
  written : gmap string Z
}.

Definition start : tracked :=
  {| cache := MemoryCache.empty; written := ∅ |}.

Definition apply (x : tracked) (o : op) : tracked :=
  match o with
  | Get _ => x
  | Put key data duration now =>
      {| cache := MemoryCache.Put (cache x) key data duration now;
         written := <[key := now]> (written x) |}
  | Remove key =>
      {| cache := MemoryCache.Remove (cache x) key;
         written := delete key (written x) |}
  | Clear =>
      {| cache := MemoryCache.Clear (cache x); written := ∅ |}
  end.

Definition run (ops : list op) (x : tracked) : tracked :=
  fold_left apply ops x.

(** Every entry was written at a recorded time, and its [expiresAt] is 0
    or later than that time. *)
Definition inv (x : tracked) : Prop :=
  forall key item,
    MemoryCache.store (cache x) !! key = Some item ->
    exists w, written x !! key = Some w /\
              (expiresAt item = 0 \/ w < expiresAt item).

(** The sum [now + duration] of a [Put] with a positive duration fits in
    an [int64]. *)
Definition fits (o : op) : Prop :=
  match o with
  | Put _ _ duration now =>
      duration < 1 \/ Int64.min <= now + duration <= Int64.max
  | _ => True
  end.

End History.

(** ** A sample client

    The configuration that selects the built-in driver, the facade that
    [New] builds for it after package initialisation, and a second
    configuration for the same driver. *)

Definition memory_config : Config.t :=
  {| Config.Driver := "memory"; Config.MaxSize := 0; Config.Address := "";
     Config.Username := ""; Config.Password := ""; Config.Use := true |}.

Definition other_memory_config : Config.t :=
  {| Config.Driver := "memory"; Config.MaxSize := 64; Config.Address := "localhost";
     Config.Username := "u"; Config.Password := "p"; Config.Use := false |}.

Definition memory_facade : Cache.t :=
  {| Cache.config := memory_config; Cache.driver := 1%positive |}.

(** * Properties *)

(** ** Arithmetic and strings *)

Lemma wrap_in_range (z : Z) : Int64.in_range z -> Int64.wrap z = z.
Proof.
  unfold Int64.in_range, Int64.wrap, Int64.min, Int64.max. intros H.
  rewrite Z.mod_small; lia.
Qed.

Lemma prefix_app (a b : string) : String.prefix a (a +:+ b) = true.
Proof.
  induction a as [|ch a IH]; simpl.
  - by destruct b.
  - destruct (Ascii.ascii_dec ch ch); [exact IH | congruence].
Qed.

Lemma contains_app_r (sub pre s : string) :
  contains sub s = true -> contains sub (pre +:+ s) = true.
Proof.
  intros H. induction pre as [|ch pre IH]; simpl; [exact H |].
  rewrite IH. apply orb_true_r.
Qed.

Lemma contains_middle (pre sub post : string) :
  contains sub (pre +:+ sub +:+ post) = true.
Proof.
  apply contains_app_r.
  pose proof (prefix_app sub post) as H.
  destruct (sub +:+ post); cbn [contains]; rewrite H; reflexivity.
Qed.

(** ** The driver *)

Section driver_facts.
Context (m : MemoryCache.t) (key : string).

Lemma Get_found (item : MemoryCacheItem) :
  MemoryCache.store m !! key = Some item ->
  MemoryCache.Get m key = (value item, true).
Proof. unfold MemoryCache.Get. by intros ->. Qed.

Lemma Get_missing :
  MemoryCache.store m !! key = None ->
  MemoryCache.Get m key = (Nil, false).
Proof. unfold MemoryCache.Get. by intros ->. Qed.

Lemma Put_stored (data : any) (duration now : Z) :
  MemoryCache.store (MemoryCache.Put m key data duration now) !! key
  = Some {| value := data;
            expiresAt := if duration <? 1 then 0 else Int64.add now duration |}.
Proof.
  unfold MemoryCache.Put. simpl. rewrite lookup_insert_eq.
  by destruct (duration <? 1).
Qed.

Lemma Put_other (k : string) (data : any) (duration now : Z) :
  k ≠ key ->
  MemoryCache.store (MemoryCache.Put m k data duration now) !! key
  = MemoryCache.store m !! key.
Proof. intros H. unfold MemoryCache.Put. simpl. by rewrite lookup_insert_ne. Qed.

Lemma Remove_gone : MemoryCache.store (MemoryCache.Remove m key) !! key = None.
Proof. apply lookup_delete_eq. Qed.

Lemma Remove_other (k : string) :
  k ≠ key ->
  MemoryCache.store (MemoryCache.Remove m k) !! key = MemoryCache.store m !! key.
Proof. intros H. simpl. by rewrite lookup_delete_ne. Qed.

Lemma Remove_twice :
  MemoryCache.Remove (MemoryCache.Remove m key) key = MemoryCache.Remove m key.
Proof. unfold MemoryCache.Remove. simpl. by rewrite delete_delete_eq. Qed.

Lemma Clear_gone : MemoryCache.store (MemoryCache.Clear m) !! key = None.
Proof. apply lookup_empty. Qed.

End driver_facts.

(** ** The facade over one heap *)

Lemma heap_on_driver (c : Cache.t) (f : MemoryCache.t -> MemoryCache.t)
    (s : State) (l : Driver) :
  heap (Cache.on_driver c f s) !!! l
  = if decide (Cache.driver c = l) then f (heap s !!! l) else heap s !!! l.
Proof.
  unfold Cache.on_driver, Cache.target. simpl. case_decide as E.
  - subst l. apply lookup_total_insert_eq.
  - by apply lookup_total_insert_ne.
Qed.

Lemma target_on_driver (c : Cache.t) (f : MemoryCache.t -> MemoryCache.t) (s : State) :
  Cache.target c (Cache.on_driver c f s) = f (Cache.target c s).
Proof.
  unfold Cache.target at 1. rewrite heap_on_driver.
  by rewrite decide_True.
Qed.

Lemma on_driver_twice (c : Cache.t) (f g : MemoryCache.t -> MemoryCache.t) (s : State) :
  Cache.on_driver c g (Cache.on_driver c f s)
  = Cache.on_driver c (fun m => g (f m)) s.
Proof.
  unfold Cache.on_driver at 1. rewrite target_on_driver.
  unfold Cache.on_driver. simpl. by rewrite insert_insert_eq.
Qed.

Lemma exec_action_frame (c : Cache.t) (a : action) (s : State) (l : Driver) (key : string) :
  disturbs l key (Call c a) = false ->
  MemoryCache.store (heap (exec_action c a s) !!! l) !! key
  = MemoryCache.store (heap s !!! l) !! key.
Proof.
  unfold disturbs. intros H.
  destruct a; cbn [exec_action writes] in *; try reflexivity;
    unfold Cache.Put, Cache.PutForever, Cache.Remove, Cache.Clear,
      Cache.Pull, Cache.PullString, Cache.PullInt; cbn [snd];
    rewrite heap_on_driver; case_decide as E; try reflexivity;
    rewrite (bool_decide_eq_true_2 _ E) in H; cbn [andb] in H;
    try discriminate;
    apply bool_decide_eq_false in H;
    first [ by apply Put_other | by apply Remove_other ].
Qed.

Lemma exec_step_frame (x : step) (s : State) (l : Driver) (key : string) :
  disturbs l key x = false ->
  MemoryCache.store (heap (exec_step s x) !!! l) !! key
  = MemoryCache.store (heap s !!! l) !! key.
Proof.
  destruct x as [c a | t]; simpl.
  - apply exec_action_frame.
  - reflexivity.
Qed.

Lemma exec_frame (prog : list step) (s : State) (l : Driver) (key : string) :
  Forall (fun x => disturbs l key x = false) prog ->
  MemoryCache.store (heap (exec prog s) !!! l) !! key
  = MemoryCache.store (heap s !!! l) !! key.
Proof.
  unfold exec. intros H. revert s.
  induction H as [| x prog Hx _ IH]; intros s; simpl; [reflexivity |].
  rewrite IH. by apply exec_step_frame.
Qed.

(** ** Entries persist until they are overwritten or removed *)

Lemma stored_after_put (c : Cache.t) (key : string) (data : any) (duration : Z) (s : State) :
  MemoryCache.store (Cache.target c (Cache.Put c key data duration s)) !! key
  = Some {| value := data;
            expiresAt := if duration <? 1 then 0
                         else Int64.add (clock s) duration |}.
Proof. unfold Cache.Put. rewrite target_on_driver. apply Put_stored. Qed.

Lemma Get_of_entry (c : Cache.t) (key : string) (item : MemoryCacheItem) (s : State) :
  MemoryCache.store (Cache.target c s) !! key = Some item ->
  Cache.Get c key s = (value item, true).
Proof. apply Get_found. Qed.

(** C1: after [Put(k, v, ttl)] with [ttl <= 0], [Get(k)] returns [(v, true)],
    and it still does after any program in which no step on the same driver
    is a [Remove(k)], a [Pull] of [k], a [Clear()] or a [Put] of [k]; steps
    on other keys, on other drivers, and the passing of time leave the entry
    of [k], value and [expiresAt = 0], as it was written. *)
Theorem put_forever_persists (c : Cache.t) (key : string) (data : any) (ttl : Z)
    (prog : list step) (s : State) :
  ttl <= 0 ->
  Forall (fun x => disturbs (Cache.driver c) key x = false) prog ->
  Cache.Get c key (Cache.Put c key data ttl s) = (data, true) /\
  Cache.Get c key (exec prog (Cache.Put c key data ttl s)) = (data, true) /\
  MemoryCache.store (Cache.target c (exec prog (Cache.Put c key data ttl s))) !! key
  = Some {| value := data; expiresAt := 0 |}.
Proof.
  intros Httl Hprog.
  assert (MemoryCache.store (Cache.target c (Cache.Put c key data ttl s)) !! key
          = Some {| value := data; expiresAt := 0 |}) as Hput.
  { rewrite stored_after_put. replace (ttl <? 1) with true; [done |].
    symmetry. apply Z.ltb_lt. lia. }
  assert (MemoryCache.store (Cache.target c (exec prog (Cache.Put c key data ttl s))) !! key
          = Some {| value := data; expiresAt := 0 |}) as Hrun.
  { unfold Cache.target. rewrite exec_frame; [exact Hput | exact Hprog]. }
  split; [| split].
  - by rewrite (Get_of_entry _ _ _ _ Hput).
  - by rewrite (Get_of_entry _ _ _ _ Hrun).
  - exact Hrun.
Qed.

Lemma put_forever_persists_witness :
  Cache.Get memory_facade "a" (Cache.Put memory_facade "a" (Int 42) 0 (init 100))
  = (Int 42, true) /\
  Cache.Get memory_facade "a"
    (exec [Call memory_facade (APut "b" (Str "x") 5); Sleep 200;
           Call memory_facade (APull "b"); Call memory_facade (AGet "a")]
       (Cache.Put memory_facade "a" (Int 42) 0 (init 100)))
  = (Int 42, true) /\
  MemoryCache.store (Cache.target memory_facade
    (exec [Call memory_facade (APut "b" (Str "x") 5); Sleep 200;
           Call memory_facade (APull "b"); Call memory_facade (AGet "a")]
       (Cache.Put memory_facade "a" (Int 42) 0 (init 100)))) !! "a"
  = Some {| value := Int 42; expiresAt := 0 |}.
Proof.
  apply (put_forever_persists memory_facade "a" (Int 42) 0); [lia |].
  repeat constructor.
Defined.

(** C2: [Get] takes no account of [expiresAt].  When the entry of [k] has
    [expiresAt > 0] and the clock reads a time past it, [Get(k)] still
    returns the stored value with [found = true]; and it keeps doing so, at
    any such time, after any program in which no step on the same driver
    overwrites [k] by a [Put], removes it by [Remove] or [Pull], or clears
    the store. *)
Theorem get_ignores_expiry (c : Cache.t) (key : string) (item : MemoryCacheItem)
    (prog : list step) (s : State) (t : Z) :
  MemoryCache.store (Cache.target c s) !! key = Some item ->
  0 < expiresAt item ->
  expiresAt item < t ->
  Forall (fun x => disturbs (Cache.driver c) key x = false) prog ->
  Cache.Get c key (set_clock t s) = (value item, true) /\
  Cache.Get c key (set_clock t (exec prog s)) = (value item, true).
Proof.
  intros Hitem _ _ Hprog. split.
  - by apply Get_of_entry.
  - apply Get_of_entry. unfold Cache.target, set_clock. simpl.
    rewrite exec_frame; [exact Hitem | exact Hprog].
Qed.

Lemma get_ignores_expiry_witness :
  Cache.Get memory_facade "b"
    (set_clock 1000 (Cache.Put memory_facade "b" (Str "x") 5 (init 100)))
  = (Str "x", true) /\
  Cache.Get memory_facade "b"
    (set_clock 1000
       (exec [Sleep 106; Call memory_facade (AGetString "b");
              Call memory_facade (APutForever "a" (Int 1)); Call memory_facade (ARemove "a")]
          (Cache.Put memory_facade "b" (Str "x") 5 (init 100))))
  = (Str "x", true).
Proof.
  apply (get_ignores_expiry memory_facade "b" {| value := Str "x"; expiresAt := 105 |}).
  - vm_compute. reflexivity.
  - simpl. lia.
  - simpl. lia.
  - repeat constructor.
Defined.

(** ** Read and delete *)

Lemma Get_after_Remove (c : Cache.t) (key : string) (s : State) :
  Cache.Get c key (Cache.on_driver c (fun m => MemoryCache.Remove m key) s)
  = (Nil, false).
Proof.
  unfold Cache.Get. rewrite target_on_driver.
  apply Get_missing, Remove_gone.
Qed.

(** C3: [Pull(k)], [PullString(k)] and [PullInt(k)] leave [k] absent, so
    that [Get(k)] afterwards reports not-found, whatever the store held for
    [k] before and whether or not the typed extraction succeeded; each
    returns what [Get(k)], [GetString(k)] or [GetInt(k)] returns on the
    state before the removal. *)
Theorem pull_leaves_absent (c : Cache.t) (key : string) (s : State) :
  (fst (Cache.Pull c key s) = Cache.Get c key s /\
   Cache.Get c key (snd (Cache.Pull c key s)) = (Nil, false)) /\
  (fst (Cache.PullString c key s) = Cache.GetString c key s /\
   Cache.Get c key (snd (Cache.PullString c key s)) = (Nil, false)) /\
  (fst (Cache.PullInt c key s) = Cache.GetInt c key s /\
   Cache.Get c key (snd (Cache.PullInt c key s)) = (Nil, false)).
Proof.
  unfold Cache.Pull, Cache.PullString, Cache.PullInt. cbn [fst snd].
  repeat split; first [ reflexivity | apply Get_after_Remove ].
Qed.

(** ** Compute if absent *)

(** C4: when [Get(k)] finds a value, [Remember(k, d, compute)] returns it
    and does not invoke [compute] (the world, invocation count included, is
    unchanged).  Otherwise [compute] is invoked exactly once, its result is
    stored by [Put(k, result, d)] on the state the callback left, the result
    is returned, and [Get(k)] then returns it with [found = true].
    [RememberForever(k, compute)] is [Remember(k, 0, compute)]. *)
Theorem remember_computes_once (c : Cache.t) (key : string) (d : Z)
    (cb : callback) (w : World) :
  (forall v, Cache.Get c key (st w) = (v, true) ->
     Cache.Remember c key d cb w = (v, w)) /\
  (forall v, Cache.Get c key (st w) = (v, false) ->
     fst (Cache.Remember c key d cb w) = fst (cb (st w)) /\
     calls (snd (Cache.Remember c key d cb w)) = S (calls w) /\
     st (snd (Cache.Remember c key d cb w))
       = Cache.Put c key (fst (cb (st w))) d (snd (cb (st w))) /\
     Cache.Get c key (st (snd (Cache.Remember c key d cb w)))
       = (fst (cb (st w)), true)) /\
  Cache.RememberForever c key cb w = Cache.Remember c key 0 cb w.
Proof.
  split; [| split].
  - intros v H. unfold Cache.Remember. by rewrite H.
  - intros v H. unfold Cache.Remember, invoke. rewrite H.
    destruct (cb (st w)) as [r s1]. cbn [fst snd st calls].
    repeat split.
    apply Get_of_entry with
      (item := {| value := r;
                  expiresAt := if d <? 1 then 0 else Int64.add (clock s1) d |}).
    apply stored_after_put.
  - reflexivity.
Qed.

Lemma remember_computes_once_witness :
  Cache.Remember memory_facade "a" 5 (fun s => (Int 7, set_clock 150 s))
    {| st := Cache.Put memory_facade "a" (Int 42) 0 (init 100); calls := 0 |}
  = (Int 42, {| st := Cache.Put memory_facade "a" (Int 42) 0 (init 100); calls := 0 |})
  /\
  (fst (Cache.Remember memory_facade "a" 5 (fun s => (Int 7, set_clock 150 s))
          {| st := init 100; calls := 0 |}) = Int 7 /\
   calls (snd (Cache.Remember memory_facade "a" 5 (fun s => (Int 7, set_clock 150 s))
          {| st := init 100; calls := 0 |})) = 1%nat /\
   Cache.Get memory_facade "a"
     (st (snd (Cache.Remember memory_facade "a" 5 (fun s => (Int 7, set_clock 150 s))
          {| st := init 100; calls := 0 |}))) = (Int 7, true)).
Proof.
  split.
  - destruct (remember_computes_once memory_facade "a" 5
                (fun s => (Int 7, set_clock 150 s))
                {| st := Cache.Put memory_facade "a" (Int 42) 0 (init 100); calls := 0 |})
      as [Hhit _].
    apply (Hhit (Int 42)). vm_compute. reflexivity.
  - destruct (remember_computes_once memory_facade "a" 5
                (fun s => (Int 7, set_clock 150 s))
                {| st := init 100; calls := 0 |}) as [_ [Hmiss _]].
    destruct (Hmiss Nil) as [H1 [H2 [_ H4]]]; [vm_compute; reflexivity |].
    exact (conj H1 (conj H2 H4)).
Defined.

(** ** Typed accessors *)

(** C5: when the value stored for [k] is not a string, [GetString(k)]
    returns [("", false)], and when it is not an int, [GetInt(k)] returns
    [(0, false)]: the very results that an absent key gives.  The accessors
    return no error and change nothing: running them leaves the state, and
    with it the entry of [k], as it was. *)
Theorem typed_get_mismatch (c : Cache.t) (key : string) (item : MemoryCacheItem)
    (s : State) :
  MemoryCache.store (Cache.target c s) !! key = Some item ->
  ((forall str, value item <> Str str) -> Cache.GetString c key s = ("", false)) /\
  ((forall n, value item <> Int n) -> Cache.GetInt c key s = (0, false)) /\
  (forall s', MemoryCache.store (Cache.target c s') !! key = None ->
     Cache.GetString c key s' = ("", false) /\ Cache.GetInt c key s' = (0, false)) /\
  exec [Call c (AGetString key); Call c (AGetInt key)] s = s /\
  MemoryCache.store
    (Cache.target c (exec [Call c (AGetString key); Call c (AGetInt key)] s)) !! key
  = Some item.
Proof.
  intros Hitem. repeat apply conj.
  - intros Hne. unfold Cache.GetString. rewrite (Get_of_entry _ _ _ _ Hitem).
    cbn [negb]. destruct (value item) as [| str | | |]; try reflexivity.
    by destruct (Hne str).
  - intros Hne. unfold Cache.GetInt. rewrite (Get_of_entry _ _ _ _ Hitem).
    cbn [negb]. destruct (value item) as [| | n | |]; try reflexivity.
    by destruct (Hne n).
  - intros s' Hnone. unfold Cache.GetString, Cache.GetInt, Cache.Get.
    by rewrite (Get_missing _ _ Hnone).
  - reflexivity.
  - exact Hitem.
Qed.

Lemma typed_get_mismatch_witness :
  Cache.GetString memory_facade "a" (Cache.Put memory_facade "a" (Int 42) 0 (init 100))
  = ("", false) /\
  Cache.GetInt memory_facade "b" (Cache.Put memory_facade "b" (Str "x") 5 (init 100))
  = (0, false) /\
  Cache.GetString memory_facade "b" (init 100) = ("", false).
Proof.
  destruct (typed_get_mismatch memory_facade "a" {| value := Int 42; expiresAt := 0 |}
              (Cache.Put memory_facade "a" (Int 42) 0 (init 100)))
    as [HnotStr _]; [vm_compute; reflexivity |].
  destruct (typed_get_mismatch memory_facade "b" {| value := Str "x"; expiresAt := 105 |}
              (Cache.Put memory_facade "b" (Str "x") 5 (init 100)))
    as [_ [HnotInt [Habsent _]]]; [vm_compute; reflexivity |].
  split; [| split].
  - apply HnotStr. intros str. simpl. discriminate.
  - apply HnotInt. intros n. simpl. discriminate.
  - apply (Habsent (init 100)). vm_compute. reflexivity.
Defined.

(** ** Expiry timestamps *)

Lemma add_fits (now duration : Z) :
  Int64.min <= now + duration <= Int64.max ->
  Int64.add now duration = now + duration.
Proof. intros H. unfold Int64.add. by apply wrap_in_range. Qed.

Lemma apply_inv (x : History.tracked) (o : History.op) :
  History.fits o -> History.inv x -> History.inv (History.apply x o).
Proof.
  intros Hfits Hinv. destruct o as [k | k data duration now | k |]; simpl.
  - exact Hinv.
  - intros key item. unfold History.inv in Hinv. simpl.
    destruct (decide (k = key)) as [-> | Hne].
    + rewrite !lookup_insert_eq. intros [= <-]. exists now. split; [done |].
      simpl in Hfits. destruct (Z.ltb_spec duration 1) as [Hlt | Hge]; simpl.
      * by left.
      * right. rewrite add_fits; lia.
    + rewrite !lookup_insert_ne by done. apply Hinv.
  - intros key item. simpl.
    destruct (decide (k = key)) as [-> | Hne].
    + by rewrite lookup_delete_eq.
    + rewrite !lookup_delete_ne by done. apply Hinv.
  - intros key item. simpl. by rewrite lookup_empty.
Qed.

Lemma run_inv (ops : list History.op) (x : History.tracked) :
  Forall History.fits ops -> History.inv x -> History.inv (History.run ops x).
Proof.
  unfold History.run. intros H. revert x.
  induction H as [| o ops Ho _ IH]; intros x Hx; simpl; [exact Hx |].
  apply IH. by apply apply_inv.
Qed.

(** C6, as amended: [Put] with [ttl <= 0] stores [expiresAt = 0]; [Put]
    with [ttl > 0] stores the 64-bit sum of the clock reading and [ttl],
    which is [now + ttl], and later than [now], whenever that sum fits in an
    [int64].  The invariant that every entry's [expiresAt] is 0 or later
    than the time the entry was written holds of the empty driver and is
    kept by every history of [Get], [Put], [Remove] and [Clear] whose [Put]s
    have sums that fit. *)
Theorem put_expiry_invariant :
  (forall m key data ttl now,
     ttl <= 0 ->
     MemoryCache.store (MemoryCache.Put m key data ttl now) !! key
     = Some {| value := data; expiresAt := 0 |}) /\
  (forall m key data ttl now,
     0 < ttl ->
     MemoryCache.store (MemoryCache.Put m key data ttl now) !! key
     = Some {| value := data; expiresAt := Int64.add now ttl |}) /\
  (forall ttl now,
     0 < ttl -> Int64.min <= now + ttl <= Int64.max ->
     Int64.add now ttl = now + ttl /\ now < Int64.add now ttl) /\
  History.inv History.start /\
  (forall ops x,
     Forall History.fits ops -> History.inv x -> History.inv (History.run ops x)).
Proof.
  repeat apply conj.
  - intros m key data ttl now H. rewrite Put_stored.
    destruct (Z.ltb_spec ttl 1); [done | lia].
  - intros m key data ttl now H. rewrite Put_stored.
    destruct (Z.ltb_spec ttl 1); [lia | done].
  - intros ttl now H1 H2. rewrite add_fits by done. lia.
  - intros key item. unfold History.start. simpl. by rewrite lookup_empty.
  - apply run_inv.
Qed.

Lemma put_expiry_invariant_witness :
  MemoryCache.store (MemoryCache.Put MemoryCache.empty "a" (Int 42) 0 100) !! "a"
  = Some {| value := Int 42; expiresAt := 0 |} /\
  MemoryCache.store (MemoryCache.Put MemoryCache.empty "b" (Str "x") 5 100) !! "b"
  = Some {| value := Str "x"; expiresAt := Int64.add 100 5 |} /\
  (Int64.add 100 5 = 105 /\ 100 < Int64.add 100 5) /\
  History.inv
    (History.run
       [History.Put "a" (Int 42) 0 100; History.Put "b" (Str "x") 5 100;
        History.Get "b"; History.Remove "a"; History.Put "b" (Str "y") 60 107;
        History.Clear; History.Put "c" Nil (-3) 110]
       History.start).
Proof.
  destruct put_expiry_invariant as [Hforever [Httl [Hsum [Hstart Hrun]]]].
  split; [| split; [| split]].
  - apply Hforever. lia.
  - apply Httl. lia.
  - apply (Hsum 5 100); [lia | unfold Int64.min, Int64.max; lia].
  - apply Hrun; [| exact Hstart].
    repeat constructor; simpl; unfold Int64.min, Int64.max; lia.
Defined.

(** C6 as stated fails when the sum overflows: a [Put] at clock reading
    1700000000 with the largest [int64] duration stores a negative
    [expiresAt], which is neither [now + ttl], nor 0, nor later than the
    time of writing. *)
Lemma put_expiry_overflow :
  ~ (forall item,
       MemoryCache.store
         (MemoryCache.Put MemoryCache.empty "k" (Int 1) Int64.max 1700000000) !! "k"
       = Some item ->
       expiresAt item = 1700000000 + Int64.max) /\
  ~ (forall item,
       MemoryCache.store
         (MemoryCache.Put MemoryCache.empty "k" (Int 1) Int64.max 1700000000) !! "k"
       = Some item ->
       expiresAt item = 0 \/ 1700000000 < expiresAt item).
Proof.
  split; intros H;
    specialize (H _ (Put_stored MemoryCache.empty "k" (Int 1) Int64.max 1700000000));
    vm_compute in H.
  - discriminate H.
  - destruct H as [H | H]; discriminate H.
Qed.

(** ** Construction and registration *)

Lemma New_registered (cfg : Config.t) (d : Driver) (s : State) :
  drivers s !! Config.Driver cfg = Some d ->
  New cfg s = Ok {| Cache.config := cfg; Cache.driver := d |}.
Proof. unfold New. by intros ->. Qed.

Lemma New_Ok_inv (cfg : Config.t) (c : Cache.t) (s : State) :
  New cfg s = Ok c ->
  drivers s !! Config.Driver cfg = Some (Cache.driver c) /\ Cache.config c = cfg.
Proof.
  unfold New. destruct (drivers s !! Config.Driver cfg); [| discriminate].
  by intros [= <-].
Qed.

(** C7, as amended: constructing a facade for an unregistered name and
    registering under a name already taken both panic with a message that
    contains the offending name; registering a nil driver panics with the
    fixed message "cache: driver is nil", whatever the name.  Registering
    two non-nil drivers under distinct names that are both free succeeds
    twice, after which each name resolves to its own driver; and when
    construction succeeds the facade holds the configuration and the driver
    registered under the configured name. *)
Theorem configuration_errors_panic (s : State) :
  (forall cfg,
     drivers s !! Config.Driver cfg = None ->
     New cfg s
     = Panic ("cache: cache provider " +:+ Config.Driver cfg +:+ " is not registered") /\
     contains (Config.Driver cfg)
       ("cache: cache provider " +:+ Config.Driver cfg +:+ " is not registered") = true) /\
  (forall name d,
     is_Some (drivers s !! name) ->
     RegisterDriver name (Some d) s
     = Panic ("cache: driver " +:+ name +:+ " is already registered") /\
     contains name ("cache: driver " +:+ name +:+ " is already registered") = true) /\
  (forall name, RegisterDriver name None s = Panic "cache: driver is nil") /\
  (forall n1 n2 d1 d2,
     n1 <> n2 -> drivers s !! n1 = None -> drivers s !! n2 = None ->
     exists s1 s2,
       RegisterDriver n1 (Some d1) s = Ok s1 /\
       RegisterDriver n2 (Some d2) s1 = Ok s2 /\
       (forall cfg, Config.Driver cfg = n1 ->
          New cfg s2 = Ok {| Cache.config := cfg; Cache.driver := d1 |}) /\
       (forall cfg, Config.Driver cfg = n2 ->
          New cfg s2 = Ok {| Cache.config := cfg; Cache.driver := d2 |})) /\
  (forall cfg d,
     drivers s !! Config.Driver cfg = Some d ->
     New cfg s = Ok {| Cache.config := cfg; Cache.driver := d |}).
Proof.
  repeat apply conj.
  - intros cfg H. unfold New. rewrite H. split; [reflexivity |].
    apply contains_middle.
  - intros name d [d0 H]. unfold RegisterDriver. rewrite H. split; [reflexivity |].
    apply contains_middle.
  - reflexivity.
  - intros n1 n2 d1 d2 Hne H1 H2. eexists _, _.
    split. { unfold RegisterDriver. rewrite H1. reflexivity. }
    split.
    { unfold RegisterDriver. simpl. rewrite lookup_insert_ne by done.
      rewrite H2. reflexivity. }
    split; intros cfg <-; apply New_registered; simpl.
    + rewrite lookup_insert_ne by done. apply lookup_insert_eq.
    + apply lookup_insert_eq.
  - intros cfg d. apply New_registered.
Qed.

Lemma configuration_errors_panic_witness :
  New {| Config.Driver := "redis"; Config.MaxSize := 0; Config.Address := "";
         Config.Username := ""; Config.Password := ""; Config.Use := true |} (init 100)
  = Panic "cache: cache provider redis is not registered" /\
  RegisterDriver "memory" (Some 2%positive) (init 100)
  = Panic "cache: driver memory is already registered" /\
  (exists s1 s2,
     RegisterDriver "redis" (Some 2%positive) (init 100) = Ok s1 /\
     RegisterDriver "file" (Some 3%positive) s1 = Ok s2) /\
  New memory_config (init 100) = Ok memory_facade.
Proof.
  destruct (configuration_errors_panic (init 100))
    as [Hnew [Hdup [_ [Htwo Hbound]]]].
  split; [| split; [| split]].
  - apply (Hnew {| Config.Driver := "redis"; Config.MaxSize := 0; Config.Address := "";
                   Config.Username := ""; Config.Password := ""; Config.Use := true |}).
    vm_compute. reflexivity.
  - apply (Hdup "memory" 2%positive). exists 1%positive. vm_compute. reflexivity.
  - destruct (Htwo "redis" "file" 2%positive 3%positive) as [s1 [s2 [H1 [H2 _]]]].
    + discriminate.
    + vm_compute. reflexivity.
    + vm_compute. reflexivity.
    + exists s1, s2. by split.
  - apply (Hbound memory_config 1%positive). vm_compute. reflexivity.
Defined.

(** C7 as stated fails for the nil driver: the panic message of
    [RegisterDriver("redis", nil)] does not mention "redis". *)
Lemma nil_driver_message_omits_name :
  ~ (exists msg,
       RegisterDriver "redis" None (init 100) = Panic msg /\
       contains "redis" msg = true).
Proof.
  intros [msg [H1 H2]]. simpl in H1. injection H1 as <-.
  vm_compute in H2. discriminate H2.
Qed.

(** ** Idempotence of removal *)

Lemma Remove_Remove (c : Cache.t) (key : string) (s : State) :
  Cache.Remove c key (Cache.Remove c key s) = Cache.Remove c key s.
Proof.
  unfold Cache.Remove. rewrite on_driver_twice. unfold Cache.on_driver.
  by rewrite Remove_twice.
Qed.

Lemma Clear_Clear (c : Cache.t) (s : State) :
  Cache.Clear c (Cache.Clear c s) = Cache.Clear c s.
Proof. unfold Cache.Clear. by rewrite on_driver_twice. Qed.

(** C8: [Remove(k)] performed twice leaves the state that performing it once
    leaves, on the driver and through the facade, and so does [Clear()]; in
    particular [Get], on any facade and any key, cannot tell twice from
    once.  After [Clear()], [Get] returns not-found for every key. *)
Theorem remove_clear_idempotent (c : Cache.t) (key : string) (s : State) :
  (forall m, MemoryCache.Remove (MemoryCache.Remove m key) key = MemoryCache.Remove m key) /\
  (forall m, MemoryCache.Clear (MemoryCache.Clear m) = MemoryCache.Clear m) /\
  Cache.Remove c key (Cache.Remove c key s) = Cache.Remove c key s /\
  Cache.Clear c (Cache.Clear c s) = Cache.Clear c s /\
  (forall c' k,
     Cache.Get c' k (Cache.Remove c key (Cache.Remove c key s))
     = Cache.Get c' k (Cache.Remove c key s)) /\
  (forall c' k,
     Cache.Get c' k (Cache.Clear c (Cache.Clear c s))
     = Cache.Get c' k (Cache.Clear c s)) /\
  (forall k, Cache.Get c k (Cache.Clear c s) = (Nil, false)).
Proof.
  repeat apply conj.
  - intros m. apply Remove_twice.
  - reflexivity.
  - apply Remove_Remove.
  - apply Clear_Clear.
  - intros c' k. by rewrite Remove_Remove.
  - intros c' k. by rewrite Clear_Clear.
  - intros k. unfold Cache.Get, Cache.Clear. rewrite target_on_driver.
    apply Get_missing, Clear_gone.
Qed.

(** ** Facades and drivers *)

Lemma Get_same_driver (c1 c2 : Cache.t) (key : string) (s : State) :
  Cache.driver c1 = Cache.driver c2 ->
  Cache.Get c1 key s = Cache.Get c2 key s.
Proof. unfold Cache.Get, Cache.target. by intros ->. Qed.

(** C9: two facades built by [New] from configurations that name the same
    registered driver hold the same driver reference, hence one store: a
    value put through the first is returned, with [found = true], by [Get]
    through the second, whether the second is built before or after the
    [Put]. *)
Theorem facades_share_driver (cfg1 cfg2 : Config.t) (c1 : Cache.t)
    (key : string) (data : any) (ttl : Z) (s : State) :
  Config.Driver cfg1 = Config.Driver cfg2 ->
  New cfg1 s = Ok c1 ->
  exists c2,
    New cfg2 s = Ok c2 /\
    New cfg2 (Cache.Put c1 key data ttl s) = Ok c2 /\
    Cache.driver c2 = Cache.driver c1 /\
    Cache.Get c2 key (Cache.Put c1 key data ttl s) = (data, true).
Proof.
  intros Hname Hnew. apply New_Ok_inv in Hnew as [Hreg _].
  rewrite Hname in Hreg.
  exists {| Cache.config := cfg2; Cache.driver := Cache.driver c1 |}.
  repeat apply conj.
  - by apply New_registered.
  - by apply New_registered.
  - reflexivity.
  - rewrite (Get_same_driver _ c1) by reflexivity.
    eapply (Get_of_entry c1 key {| value := data |}). apply stored_after_put.
Qed.

Lemma facades_share_driver_witness :
  exists c2,
    New other_memory_config (init 100) = Ok c2 /\
    New other_memory_config (Cache.Put memory_facade "a" (Int 42) 30 (init 100)) = Ok c2 /\
    Cache.driver c2 = Cache.driver memory_facade /\
    Cache.Get c2 "a" (Cache.Put memory_facade "a" (Int 42) 30 (init 100)) = (Int 42, true).
Proof.
  apply (facades_share_driver memory_config other_memory_config memory_facade).
  - reflexivity.
  - vm_compute. reflexivity.
Defined.

(** ** Presence and nil values *)

(** C10: after [Put(k, nil, ttl)], [Get(k)] returns [(nil, true)]; on a key
    that has no entry it returns [(nil, false)].  The value is the same in
    both cases and only the flag tells a stored nil from a miss. *)
Theorem found_reports_presence (c : Cache.t) (key : string) (ttl : Z) (s : State) :
  Cache.Get c key (Cache.Put c key Nil ttl s) = (Nil, true) /\
  (forall s',
     MemoryCache.store (Cache.target c s') !! key = None ->
     Cache.Get c key s' = (Nil, false)) /\
  (forall s',
     MemoryCache.store (Cache.target c s') !! key = None ->
     fst (Cache.Get c key (Cache.Put c key Nil ttl s)) = fst (Cache.Get c key s') /\
     snd (Cache.Get c key (Cache.Put c key Nil ttl s)) <> snd (Cache.Get c key s')).
Proof.
  assert (Cache.Get c key (Cache.Put c key Nil ttl s) = (Nil, true)) as Hput.
  { eapply (Get_of_entry c key {| value := Nil |}). apply stored_after_put. }
  repeat apply conj.
  - exact Hput.
  - intros s'. apply Get_missing.
  - intros s' H. rewrite Hput. unfold Cache.Get. rewrite (Get_missing _ _ H).
    by split.
Qed.

Lemma found_reports_presence_witness :
  Cache.Get memory_facade "n" (Cache.Put memory_facade "n" Nil 0 (init 100)) = (Nil, true) /\
  Cache.Get memory_facade "n" (init 100) = (Nil, false).
Proof.
  destruct (found_reports_presence memory_facade "n" 0 (init 100)) as [Hput [Hmiss _]].
  split; [exact Hput |].
  apply (Hmiss (init 100)). vm_compute. reflexivity.
Defined.

(** * Further properties of the driver *)

Lemma Get_miss_inv (m : MemoryCache.t) (key : string) :
  snd (MemoryCache.Get m key) = false -> MemoryCache.store m !! key = None.
Proof.
  unfold MemoryCache.Get. by destruct (MemoryCache.store m !! key).
Qed.

Lemma Get_hit_inv (m : MemoryCache.t) (key : string) (v : any) :
  MemoryCache.Get m key = (v, true) ->
  exists item, MemoryCache.store m !! key = Some item /\ value item = v.
Proof.
  unfold MemoryCache.Get. destruct (MemoryCache.store m !! key) as [item |].
  - intros [= <-]. by exists item.
  - discriminate.
Qed.

Lemma Remove_absent (m : MemoryCache.t) (key : string) :
  MemoryCache.store m !! key = None -> MemoryCache.Remove m key = m.
Proof.
  destruct m as [st0]. unfold MemoryCache.Remove. simpl. intros H.
  by rewrite delete_id.
Qed.

Lemma heap_on_driver_id (c : Cache.t) (f : MemoryCache.t -> MemoryCache.t)
    (s : State) (l : Driver) :
  f (Cache.target c s) = Cache.target c s ->
  heap (Cache.on_driver c f s) !!! l = heap s !!! l.
Proof.
  intros H. rewrite heap_on_driver. case_decide as E; [| reflexivity].
  subst l. exact H.
Qed.

(** X1: a [Put] replaces the entry of its key wholesale.  Two [Put]s of one
    key in a row leave the driver, and the state behind the facade, as the
    second one alone leaves it, and [Get] returns the second value. *)
Theorem put_last_write_wins (c : Cache.t) (key : string) (v1 v2 : any)
    (d1 d2 : Z) (s : State) :
  (forall m n1 n2,
     MemoryCache.Put (MemoryCache.Put m key v1 d1 n1) key v2 d2 n2
     = MemoryCache.Put m key v2 d2 n2) /\
  Cache.Put c key v2 d2 (Cache.Put c key v1 d1 s) = Cache.Put c key v2 d2 s /\
  Cache.Get c key (Cache.Put c key v2 d2 (Cache.Put c key v1 d1 s)) = (v2, true).
Proof.
  assert (forall m n1 n2,
            MemoryCache.Put (MemoryCache.Put m key v1 d1 n1) key v2 d2 n2
            = MemoryCache.Put m key v2 d2 n2) as Hdrv.
  { intros m n1 n2. unfold MemoryCache.Put. simpl. by rewrite insert_insert_eq. }
  assert (Cache.Put c key v2 d2 (Cache.Put c key v1 d1 s) = Cache.Put c key v2 d2 s)
    as Hfac.
  { unfold Cache.Put. rewrite on_driver_twice. unfold Cache.on_driver. simpl.
    by rewrite Hdrv. }
  repeat apply conj; [exact Hdrv | exact Hfac |].
  rewrite Hfac.
  eapply (Get_of_entry c key {| value := v2 |}). apply stored_after_put.
Qed.

(** X2: operations on two different keys of one driver commute: two [Put]s,
    a [Put] and a [Remove], and two [Remove]s give the same driver in either
    order. *)
Theorem distinct_keys_commute (m : MemoryCache.t) (k1 k2 : string)
    (v1 v2 : any) (d1 d2 n1 n2 : Z) :
  k1 <> k2 ->
  MemoryCache.Put (MemoryCache.Put m k1 v1 d1 n1) k2 v2 d2 n2
  = MemoryCache.Put (MemoryCache.Put m k2 v2 d2 n2) k1 v1 d1 n1 /\
  MemoryCache.Remove (MemoryCache.Put m k1 v1 d1 n1) k2
  = MemoryCache.Put (MemoryCache.Remove m k2) k1 v1 d1 n1 /\
  MemoryCache.Remove (MemoryCache.Remove m k1) k2
  = MemoryCache.Remove (MemoryCache.Remove m k2) k1.
Proof.
  intros Hne. unfold MemoryCache.Put, MemoryCache.Remove. simpl.
  repeat apply conj; f_equal.
  - by apply insert_insert_ne.
  - by apply delete_insert_ne.
  - apply delete_delete.
Qed.

Lemma distinct_keys_commute_witness :
  MemoryCache.Put (MemoryCache.Put MemoryCache.empty "a" (Int 42) 0 100) "b" (Str "x") 5 101
  = MemoryCache.Put (MemoryCache.Put MemoryCache.empty "b" (Str "x") 5 101) "a" (Int 42) 0 100.
Proof.
  apply (distinct_keys_commute MemoryCache.empty "a" "b"). discriminate.
Defined.

(** X3: [Remove(k)] undoes nothing but the entry of [k], and erases what a
    preceding [Put(k)] did: [Put] then [Remove] of one key is [Remove]
    alone, and [Remove] then [Put] is [Put] alone. *)
Theorem put_remove_cancel (m : MemoryCache.t) (key : string) (v : any) (d now : Z) :
  MemoryCache.Remove (MemoryCache.Put m key v d now) key = MemoryCache.Remove m key /\
  MemoryCache.Put (MemoryCache.Remove m key) key v d now = MemoryCache.Put m key v d now.
Proof.
  unfold MemoryCache.Put, MemoryCache.Remove. simpl. split; f_equal.
  - apply delete_insert_eq.
  - apply insert_delete_eq.
Qed.

(** X4: removing a key that has no entry changes nothing.  On the driver
    [Remove] returns the same store; through the facade, once [Get(k)]
    reports not-found, [Remove(k)] and [Pull(k)] leave every [Get], on any
    facade and key, as it was, and [Pull(k)] returns [(nil, false)]. *)
Theorem remove_absent_noop (c : Cache.t) (key : string) (s : State) :
  snd (Cache.Get c key s) = false ->
  MemoryCache.Remove (Cache.target c s) key = Cache.target c s /\
  (forall c' k, Cache.Get c' k (Cache.Remove c key s) = Cache.Get c' k s) /\
  fst (Cache.Pull c key s) = (Nil, false) /\
  (forall c' k, Cache.Get c' k (snd (Cache.Pull c key s)) = Cache.Get c' k s).
Proof.
  intros Hmiss. apply Get_miss_inv in Hmiss.
  pose proof (Remove_absent _ _ Hmiss) as Hid.
  repeat apply conj.
  - exact Hid.
  - intros c' k. unfold Cache.Get, Cache.Remove, Cache.target at 1.
    by rewrite heap_on_driver_id.
  - unfold Cache.Pull. cbn [fst]. by apply Get_missing.
  - intros c' k. unfold Cache.Pull. cbn [snd].
    unfold Cache.Get, Cache.target at 1. by rewrite heap_on_driver_id.
Qed.

Lemma remove_absent_noop_witness :
  Cache.Get memory_facade "a"
    (Cache.Remove memory_facade "zz" (Cache.Put memory_facade "a" (Int 42) 0 (init 100)))
  = Cache.Get memory_facade "a" (Cache.Put memory_facade "a" (Int 42) 0 (init 100)).
Proof.
  destruct (remove_absent_noop memory_facade "zz"
              (Cache.Put memory_facade "a" (Int 42) 0 (init 100)))
    as [_ [H _]]; [vm_compute; reflexivity | exact (H memory_facade "a")].
Defined.

(** * Further properties of the facade *)

(** X5: every duration below 1 means forever.  A [Put] with a duration that
    is zero or negative stores the same entry as [PutForever], whatever the
    clock reads: the state after one is the state after the other, up to
    the clock itself. *)
Theorem nonpositive_duration_is_forever (c : Cache.t) (key : string) (data : any)
    (d : Z) (s : State) (t : Z) :
  d < 1 ->
  Cache.Put c key data d s = Cache.PutForever c key data s /\
  heap (Cache.Put c key data d (set_clock t s)) = heap (Cache.PutForever c key data s) /\
  MemoryCache.store (Cache.target c (Cache.Put c key data d s)) !! key
  = Some {| value := data; expiresAt := 0 |}.
Proof.
  intros Hd.
  assert (forall m now now',
            MemoryCache.Put m key data d now = MemoryCache.Put m key data 0 now')
    as Hdrv.
  { intros m now now'. unfold MemoryCache.Put.
    destruct (Z.ltb_spec d 1); [reflexivity | lia]. }
  repeat apply conj.
  - unfold Cache.Put, Cache.PutForever, Cache.on_driver.
    by rewrite (Hdrv _ _ (clock s)).
  - unfold Cache.Put, Cache.PutForever, Cache.on_driver, Cache.target, set_clock.
    simpl. by rewrite (Hdrv _ _ (clock s)).
  - rewrite stored_after_put. by destruct (Z.ltb_spec d 1); [| lia].
Qed.

Lemma nonpositive_duration_is_forever_witness :
  Cache.Put memory_facade "a" (Int 42) (-7) (init 100)
  = Cache.PutForever memory_facade "a" (Int 42) (init 100).
Proof.
  apply (nonpositive_duration_is_forever memory_facade "a" (Int 42) (-7) (init 100) 0).
  lia.
Defined.

Lemma GetString_of_entry (c : Cache.t) (key : string) (item : MemoryCacheItem) (s : State) :
  MemoryCache.store (Cache.target c s) !! key = Some item ->
  Cache.GetString c key s = assert_string (value item).
Proof.
  intros H. unfold Cache.GetString. by rewrite (Get_of_entry _ _ _ _ H).
Qed.

Lemma GetInt_of_entry (c : Cache.t) (key : string) (item : MemoryCacheItem) (s : State) :
  MemoryCache.store (Cache.target c s) !! key = Some item ->
  Cache.GetInt c key s = assert_int (value item).
Proof.
  intros H. unfold Cache.GetInt. by rewrite (Get_of_entry _ _ _ _ H).
Qed.

(** X6: the typed accessors read back what was put.  After [Put(k, str)]
    of a string, [GetString(k)] returns [(str, true)] and [PullString(k)]
    returns it too; after [Put(k, n)] of an int, [GetInt(k)] and
    [PullInt(k)] return [(n, true)]; this for every duration. *)
Theorem typed_round_trip (c : Cache.t) (key : string) (str : string) (n : Z)
    (d : Z) (s : State) :
  Cache.GetString c key (Cache.Put c key (Str str) d s) = (str, true) /\
  fst (Cache.PullString c key (Cache.Put c key (Str str) d s)) = (str, true) /\
  Cache.GetInt c key (Cache.Put c key (Int n) d s) = (n, true) /\
  fst (Cache.PullInt c key (Cache.Put c key (Int n) d s)) = (n, true) /\
  Cache.GetString c key (Cache.PutForever c key (Str str) s) = (str, true) /\
  Cache.GetInt c key (Cache.PutForever c key (Int n) s) = (n, true).
Proof.
  unfold Cache.PullString, Cache.PullInt, Cache.PutForever. cbn [fst].
  fold (Cache.Put c key (Str str) 0 s). fold (Cache.Put c key (Int n) 0 s).
  repeat apply conj;
    first [ by rewrite (GetString_of_entry _ _ _ _ (stored_after_put _ _ _ _ _))
          | by rewrite (GetInt_of_entry _ _ _ _ (stored_after_put _ _ _ _ _)) ].
Qed.

(** X7: a typed accessor reports [found = true] exactly when the key has an
    entry whose value is of the requested type, and then returns that
    value. *)
Theorem typed_get_found_iff (c : Cache.t) (key : string) (s : State) :
  (forall str,
     Cache.GetString c key s = (str, true) <->
     exists item, MemoryCache.store (Cache.target c s) !! key = Some item /\
                  value item = Str str) /\
  (forall n,
     Cache.GetInt c key s = (n, true) <->
     exists item, MemoryCache.store (Cache.target c s) !! key = Some item /\
                  value item = Int n).
Proof.
  split; intros x; split.
  - unfold Cache.GetString, Cache.Get, MemoryCache.Get.
    destruct (MemoryCache.store (Cache.target c s) !! key) as [item |];
      cbn [negb]; [| discriminate].
    destruct (value item) eqn:E; cbn [assert_string]; try discriminate.
    intros [= <-]. by exists item.
  - intros [item [H E]]. rewrite (GetString_of_entry _ _ _ _ H). by rewrite E.
  - unfold Cache.GetInt, Cache.Get, MemoryCache.Get.
    destruct (MemoryCache.store (Cache.target c s) !! key) as [item |];
      cbn [negb]; [| discriminate].
    destruct (value item) eqn:E; cbn [assert_int]; try discriminate.
    intros [= <-]. by exists item.
  - intros [item [H E]]. rewrite (GetInt_of_entry _ _ _ _ H). by rewrite E.
Qed.

Lemma typed_get_found_iff_witness :
  Cache.GetString memory_facade "b" (Cache.Put memory_facade "b" (Str "x") 5 (init 100))
  = ("x", true).
Proof.
  destruct (typed_get_found_iff memory_facade "b"
              (Cache.Put memory_facade "b" (Str "x") 5 (init 100))) as [H _].
  apply (H "x"). exists {| value := Str "x"; expiresAt := 105 |}.
  split; vm_compute; reflexivity.
Defined.

(** X8: a value can be pulled once.  Whatever the first [Pull(k)],
    [PullString(k)] or [PullInt(k)] returned, a second one of any type
    returns not-found with the zero value, and leaves the state the first
    one left. *)
Theorem pull_reads_once (c : Cache.t) (key : string) (s : State) :
  fst (Cache.Pull c key (snd (Cache.Pull c key s))) = (Nil, false) /\
  fst (Cache.PullString c key (snd (Cache.PullString c key s))) = ("", false) /\
  fst (Cache.PullInt c key (snd (Cache.PullInt c key s))) = (0, false) /\
  fst (Cache.PullString c key (snd (Cache.PullInt c key s))) = ("", false) /\
  snd (Cache.Pull c key (snd (Cache.Pull c key s))) = snd (Cache.Pull c key s).
Proof.
  unfold Cache.Pull, Cache.PullString, Cache.PullInt. cbn [fst snd].
  pose proof (Get_after_Remove c key s) as H. unfold Cache.Get in H.
  unfold Cache.GetString, Cache.GetInt, Cache.Get. rewrite !H. cbn [negb].
  repeat apply conj; try reflexivity.
  apply Remove_Remove.
Qed.

Lemma Get_flag_present (m : MemoryCache.t) (key : string) :
  snd (MemoryCache.Get m key) = true <-> is_Some (MemoryCache.store m !! key).
Proof.
  unfold MemoryCache.Get. destruct (MemoryCache.store m !! key) as [item |]; simpl.
  - split; [eauto | done].
  - split; [discriminate | by intros [? ?]].
Qed.

(** X9: [Put] and [Remove] act on their key alone.  After [Put(k, v, ttl)],
    for every [ttl], [Get(k)] returns [(v, true)]; after [Remove(k)] it
    returns [(nil, false)]; and in both cases [Get] of any other key,
    through any facade, returns what it returned before. *)
Theorem put_remove_local (c : Cache.t) (key : string) (data : any) (ttl : Z) (s : State) :
  Cache.Get c key (Cache.Put c key data ttl s) = (data, true) /\
  Cache.Get c key (Cache.Remove c key s) = (Nil, false) /\
  (forall c' k, k <> key ->
     Cache.Get c' k (Cache.Put c key data ttl s) = Cache.Get c' k s /\
     Cache.Get c' k (Cache.Remove c key s) = Cache.Get c' k s).
Proof.
  repeat apply conj.
  - eapply (Get_of_entry c key {| value := data |}). apply stored_after_put.
  - apply Get_after_Remove.
  - intros c' k Hne.
    pose proof (exec_action_frame c (APut key data ttl) s (Cache.driver c') k) as HP.
    pose proof (exec_action_frame c (ARemove key) s (Cache.driver c') k) as HR.
    cbn [disturbs writes exec_action] in HP, HR.
    rewrite (bool_decide_eq_false_2 (key = k)), andb_false_r in HP, HR by congruence.
    specialize (HP eq_refl). specialize (HR eq_refl).
    unfold Cache.Get, MemoryCache.Get, Cache.target.
    by rewrite HP, HR.
Qed.

Lemma put_remove_local_witness :
  Cache.Get memory_facade "a"
    (Cache.Put memory_facade "b" (Str "x") 5 (Cache.Put memory_facade "a" (Int 42) 0 (init 100)))
  = Cache.Get memory_facade "a" (Cache.Put memory_facade "a" (Int 42) 0 (init 100)).
Proof.
  destruct (put_remove_local memory_facade "b" (Str "x") 5
              (Cache.Put memory_facade "a" (Int 42) 0 (init 100))) as [_ [_ H]].
  destruct (H memory_facade "a") as [HP _]; [discriminate | exact HP].
Defined.

Lemma exec_step_elsewhere (x : step) (s : State) (l : Driver) :
  reaches l x = false -> heap (exec_step s x) !!! l = heap s !!! l.
Proof.
  destruct x as [c a | t]; cbn [reaches exec_step]; [| reflexivity].
  intros H. apply bool_decide_eq_false in H.
  destruct a; cbn [exec_action]; try reflexivity;
    unfold Cache.Put, Cache.PutForever, Cache.Remove, Cache.Clear,
      Cache.Pull, Cache.PullString, Cache.PullInt; cbn [snd];
    rewrite heap_on_driver; by rewrite decide_False.
Qed.

(** X10: drivers do not share entries.  A program whose calls all go to
    facades bound to other drivers leaves the driver at [l] exactly as it
    was, so every [Get] through a facade bound to [l] returns what it
    returned before, whatever the program put, removed or cleared. *)
Theorem other_drivers_untouched (prog : list step) (s : State) (l : Driver) :
  Forall (fun x => reaches l x = false) prog ->
  heap (exec prog s) !!! l = heap s !!! l /\
  (forall c k, Cache.driver c = l -> Cache.Get c k (exec prog s) = Cache.Get c k s).
Proof.
  intros H.
  assert (heap (exec prog s) !!! l = heap s !!! l) as Hheap.
  { unfold exec. revert s.
    induction H as [| x prog Hx _ IH]; intros s; simpl; [reflexivity |].
    rewrite IH. by apply exec_step_elsewhere. }
  split; [exact Hheap |].
  intros c k <-. unfold Cache.Get, Cache.target. by rewrite Hheap.
Qed.

Lemma other_drivers_untouched_witness :
  Cache.Get memory_facade "a"
    (exec [Call {| Cache.config := memory_config; Cache.driver := 2%positive |} AClear;
           Sleep 300;
           Call {| Cache.config := memory_config; Cache.driver := 2%positive |}
             (APut "a" (Str "other") 0)]
       (Cache.Put memory_facade "a" (Int 42) 0 (init 100)))
  = Cache.Get memory_facade "a" (Cache.Put memory_facade "a" (Int 42) 0 (init 100)).
Proof.
  apply (other_drivers_untouched
           [Call {| Cache.config := memory_config; Cache.driver := 2%positive |} AClear;
            Sleep 300;
            Call {| Cache.config := memory_config; Cache.driver := 2%positive |}
              (APut "a" (Str "other") 0)]
           (Cache.Put memory_facade "a" (Int 42) 0 (init 100)) 1%positive).
  - repeat constructor.
  - reflexivity.
Defined.

Lemma exec_step_drivers (x : step) (s : State) : drivers (exec_step s x) = drivers s.
Proof. destruct x as [c a | t]; [destruct a |]; reflexivity. Qed.

(** X11: cache operations never touch the registry.  After any program of
    facade calls the variable [drivers] is what it was, so [New] returns
    for every configuration what it returned before. *)
Theorem programs_keep_registry (prog : list step) (s : State) :
  drivers (exec prog s) = drivers s /\
  (forall cfg, New cfg (exec prog s) = New cfg s).
Proof.
  assert (drivers (exec prog s) = drivers s) as H.
  { unfold exec. revert s.
    induction prog as [| x prog IH]; intros s; simpl; [reflexivity |].
    rewrite IH. apply exec_step_drivers. }
  split; [exact H |]. intros cfg. unfold New. by rewrite H.
Qed.

Lemma exec_step_keeps_present (x : step) (s : State) (l : Driver) (key : string) :
  deletes x = false ->
  is_Some (MemoryCache.store (heap s !!! l) !! key) ->
  is_Some (MemoryCache.store (heap (exec_step s x) !!! l) !! key).
Proof.
  destruct x as [c a | t]; [| by intros _].
  destruct a; cbn [deletes exec_step exec_action]; try discriminate; try (by intros _);
    intros _ H; unfold Cache.Put, Cache.PutForever; rewrite heap_on_driver;
    case_decide as E; try exact H; unfold MemoryCache.Put; simpl;
    (destruct (decide (key0 = key)) as [-> | Hne];
     [rewrite lookup_insert_eq; eauto | by rewrite lookup_insert_ne]).
Qed.

(** X12: nothing is evicted.  Whatever [Config.MaxSize] says, a program
    without [Remove], [Pull] and [Clear], however many entries it puts and
    however much time passes, leaves every key that [Get] found before
    still found afterwards. *)
Theorem puts_never_evict (prog : list step) (c : Cache.t) (key : string) (s : State) :
  Forall (fun x => deletes x = false) prog ->
  snd (Cache.Get c key s) = true ->
  snd (Cache.Get c key (exec prog s)) = true.
Proof.
  unfold Cache.Get, Cache.target. rewrite !Get_flag_present.
  intros H. unfold exec. revert s.
  induction H as [| x prog Hx _ IH]; intros s Hs; simpl; [exact Hs |].
  apply IH. by apply exec_step_keeps_present.
Qed.

Lemma puts_never_evict_witness :
  snd (Cache.Get memory_facade "a"
         (exec [Call memory_facade (APut "b" (Int 1) 1); Sleep 5000;
                Call memory_facade (APut "c" (Int 2) 0);
                Call memory_facade (APut "a" Nil 3)]
            (Cache.Put memory_facade "a" (Int 42) 1 (init 100)))) = true.
Proof.
  apply puts_never_evict.
  - repeat constructor.
  - vm_compute. reflexivity.
Defined.

(** * Further properties of the registry *)

(** X13: a registration that returns was given a non-nil driver and a free
    name; it binds that name, keeps every earlier binding, and touches no
    driver object, so that [New] succeeds afterwards wherever it succeeded
    before, with the same facade, and every [Get] returns what it returned
    before. *)
Theorem register_keeps_bindings (name : string) (driver : option Driver) (s s' : State) :
  RegisterDriver name driver s = Ok s' ->
  drivers s !! name = None /\
  (exists d, driver = Some d /\ drivers s' !! name = Some d) /\
  (forall n, n <> name -> drivers s' !! n = drivers s !! n) /\
  (forall cfg c, New cfg s = Ok c -> New cfg s' = Ok c) /\
  heap s' = heap s /\
  (forall c k, Cache.Get c k s' = Cache.Get c k s).
Proof.
  unfold RegisterDriver. destruct driver as [d |]; [| discriminate].
  destruct (drivers s !! name) eqn:Hfree; [discriminate |].
  intros [= <-]. simpl. repeat apply conj; try reflexivity.
  - exists d. split; [reflexivity | apply lookup_insert_eq].
  - intros n Hne. by apply lookup_insert_ne.
  - intros cfg c. unfold New. simpl.
    destruct (decide (name = Config.Driver cfg)) as [<- | Hne].
    + by rewrite Hfree.
    + by rewrite lookup_insert_ne.
Qed.

Lemma register_keeps_bindings_witness :
  New memory_config
    {| heap := heap (init 100);
       drivers := <["redis" := 2%positive]> (drivers (init 100));
       clock := clock (init 100) |}
  = Ok memory_facade.
Proof.
  destruct (register_keeps_bindings "redis" (Some 2%positive) (init 100)
              {| heap := heap (init 100);
                 drivers := <["redis" := 2%positive]> (drivers (init 100));
                 clock := clock (init 100) |})
    as [_ [_ [_ [H _]]]]; [vm_compute; reflexivity |].
  apply H. vm_compute. reflexivity.
Defined.

(** X14: the registry holds references.  When two names are bound to one
    driver reference, facades built for the two names share one store: a
    [Put] through one is returned by [Get] through the other, a [Remove]
    through one makes the other miss, and a [Clear] through one empties the
    other. *)
Theorem names_alias_one_driver (cfg1 cfg2 : Config.t) (c1 c2 : Cache.t)
    (key : string) (data : any) (ttl : Z) (s : State) :
  drivers s !! Config.Driver cfg1 = drivers s !! Config.Driver cfg2 ->
  New cfg1 s = Ok c1 ->
  New cfg2 s = Ok c2 ->
  Cache.Get c2 key (Cache.Put c1 key data ttl s) = (data, true) /\
  Cache.Get c2 key (Cache.Remove c1 key (Cache.Put c2 key data ttl s)) = (Nil, false) /\
  (forall k, Cache.Get c2 k (Cache.Clear c1 (Cache.Put c2 key data ttl s)) = (Nil, false)).
Proof.
  intros Hsame H1 H2.
  apply New_Ok_inv in H1 as [H1 _]. apply New_Ok_inv in H2 as [H2 _].
  assert (Cache.driver c2 = Cache.driver c1) as E by congruence.
  repeat apply conj.
  - rewrite (Get_same_driver c2 c1) by exact E.
    eapply (Get_of_entry c1 key {| value := data |}). apply stored_after_put.
  - rewrite (Get_same_driver c2 c1) by exact E. apply Get_after_Remove.
  - intros k. rewrite (Get_same_driver c2 c1) by exact E.
    unfold Cache.Get, Cache.Clear. rewrite target_on_driver.
    apply Get_missing, Clear_gone.
Qed.

Lemma names_alias_one_driver_witness :
  Cache.Get
    {| Cache.config :=
         {| Config.Driver := "mem2"; Config.MaxSize := 64; Config.Address := "localhost";
            Config.Username := "u"; Config.Password := "p"; Config.Use := false |};
       Cache.driver := 1%positive |} "a"
    (Cache.Put memory_facade "a" (Int 42) 0
       {| heap := heap (init 100);
          drivers := <["mem2" := 1%positive]> (drivers (init 100));
          clock := 100 |})
  = (Int 42, true).
Proof.
  apply (names_alias_one_driver memory_config
           {| Config.Driver := "mem2"; Config.MaxSize := 64; Config.Address := "localhost";
              Config.Username := "u"; Config.Password := "p"; Config.Use := false |}
           memory_facade
           {| Cache.config :=
                {| Config.Driver := "mem2"; Config.MaxSize := 64;
                   Config.Address := "localhost"; Config.Username := "u";
                   Config.Password := "p"; Config.Use := false |};
              Cache.driver := 1%positive |}).
  - vm_compute. reflexivity.
  - vm_compute. reflexivity.
  - vm_compute. reflexivity.
Defined.

(** X15: [NewMemoryCache] returns a driver of its own: its reference is
    none of the references allocated before, every [Get] through it
    misses, the drivers allocated before are as they were, and the registry
    is unchanged. *)
Theorem new_memory_cache_is_fresh (s : State) :
  heap s !! fst (NewMemoryCache s) = None /\
  (forall c k,
     Cache.driver c = fst (NewMemoryCache s) ->
     Cache.Get c k (snd (NewMemoryCache s)) = (Nil, false)) /\
  (forall c k,
     is_Some (heap s !! Cache.driver c) ->
     Cache.Get c k (snd (NewMemoryCache s)) = Cache.Get c k s) /\
  drivers (snd (NewMemoryCache s)) = drivers s.
Proof.
  unfold NewMemoryCache. cbn [fst snd].
  assert (heap s !! fresh (dom (heap s)) = None) as Hfresh.
  { apply not_elem_of_dom. apply is_fresh. }
  repeat apply conj.
  - exact Hfresh.
  - intros c k E. unfold Cache.Get, Cache.target. simpl. rewrite E.
    by rewrite lookup_total_insert_eq.
  - intros c k [m Hm]. unfold Cache.Get, Cache.target. simpl.
    rewrite lookup_total_insert_ne; [reflexivity |].
    intros E. rewrite <- E in Hm. congruence.
  - reflexivity.
Qed.

Lemma new_memory_cache_is_fresh_witness :
  Cache.Get memory_facade "a"
    (snd (NewMemoryCache (Cache.Put memory_facade "a" (Int 42) 0 (init 100))))
  = Cache.Get memory_facade "a" (Cache.Put memory_facade "a" (Int 42) 0 (init 100)).
Proof.
  destruct (new_memory_cache_is_fresh (Cache.Put memory_facade "a" (Int 42) 0 (init 100)))
    as [_ [_ [H _]]].
  apply (H memory_facade "a"). vm_compute. eexists. reflexivity.
Defined.

(** X16: right after package initialisation "memory" is the one registered
    name: [New] returns for a configuration exactly when its [Driver] field
    is "memory", and every [Get] through the facade it returns misses. *)
Theorem init_registers_memory_only (now : Z) (cfg : Config.t) :
  ((exists c, New cfg (init now) = Ok c) <-> Config.Driver cfg = "memory") /\
  (forall c k, New cfg (init now) = Ok c -> Cache.Get c k (init now) = (Nil, false)).
Proof.
  assert (forall n, drivers (init now) !! n
                    = if decide ("memory" = n) then Some (fresh (dom (∅ : gmap positive MemoryCache.t)))
                      else None) as Hreg.
  { intros n. unfold init, NewMemoryCache. simpl. apply lookup_singleton. }
  split; [split |].
  - intros [c H]. apply New_Ok_inv in H as [H _]. rewrite Hreg in H.
    case_decide; [done | discriminate].
  - intros E. unfold New. rewrite Hreg, E. rewrite decide_True by reflexivity. eauto.
  - intros c k H. apply New_Ok_inv in H as [H _]. rewrite Hreg in H.
    case_decide; [| discriminate]. injection H as H.
    unfold Cache.Get, Cache.target, init, NewMemoryCache. simpl. rewrite <- H.
    by rewrite lookup_total_insert_eq.
Qed.

Lemma init_registers_memory_only_witness :
  (exists c, New memory_config (init 100) = Ok c) /\
  Cache.Get memory_facade "a" (init 100) = (Nil, false).
Proof.
  destruct (init_registers_memory_only 100 memory_config) as [[_ H1] H2].
  split.
  - apply H1. reflexivity.
  - apply H2. vm_compute. reflexivity.
Defined.

(** X17: a facade is its driver reference.  Two facades bound to one driver
    are interchangeable whatever their configurations say: every read
    returns the same through both and every call changes the state the same
    way, so [MaxSize], [Address], [Username], [Password] and [Use] have no
    effect on any operation. *)
Theorem config_has_no_effect (c1 c2 : Cache.t) (s : State) :
  Cache.driver c1 = Cache.driver c2 ->
  (forall k, Cache.Get c1 k s = Cache.Get c2 k s /\
             Cache.GetString c1 k s = Cache.GetString c2 k s /\
             Cache.GetInt c1 k s = Cache.GetInt c2 k s /\
             Cache.Pull c1 k s = Cache.Pull c2 k s /\
             Cache.PullString c1 k s = Cache.PullString c2 k s /\
             Cache.PullInt c1 k s = Cache.PullInt c2 k s) /\
  (forall a, exec_action c1 a s = exec_action c2 a s) /\
  (forall k d cb n,
     Cache.Remember c1 k d cb {| st := s; calls := n |}
     = Cache.Remember c2 k d cb {| st := s; calls := n |}).
Proof.
  destruct c1 as [cfg1 l1], c2 as [cfg2 l2]. simpl. intros <-.
  split; [| split].
  - intros k. repeat apply conj; reflexivity.
  - intros a. destruct a; reflexivity.
  - reflexivity.
Qed.

Lemma config_has_no_effect_witness :
  exec_action memory_facade (APut "a" (Int 42) 5) (init 100)
  = exec_action {| Cache.config := other_memory_config; Cache.driver := 1%positive |}
      (APut "a" (Int 42) 5) (init 100).
Proof.
  destruct (config_has_no_effect memory_facade
              {| Cache.config := other_memory_config; Cache.driver := 1%positive |}
              (init 100)) as [_ [H _]]; [reflexivity |].
  apply (H (APut "a" (Int 42) 5)).
Defined.

(** * Further properties of [Remember] and of expiry *)

(** X18: [Remember] memoises.  Once [Remember(k, d, compute)] has returned,
    on a hit or on a miss and whatever the callback did to the cache, a
    further [Remember(k, d', compute')] returns the same value, invokes
    nothing and changes nothing. *)
Theorem remember_memoises (c : Cache.t) (key : string) (d d' : Z)
    (cb cb' : callback) (w : World) :
  Cache.Remember c key d' cb' (snd (Cache.Remember c key d cb w))
  = Cache.Remember c key d cb w.
Proof.
  unfold Cache.Remember at 2 3.
  destruct (Cache.Get c key (st w)) as [v ok] eqn:E. destruct ok.
  - cbn [snd]. unfold Cache.Remember. by rewrite E.
  - unfold invoke. destruct (cb (st w)) as [r s1]. cbn [snd].
    unfold Cache.Remember. cbn [st].
    assert (Cache.Get c key (Cache.Put c key r d s1) = (r, true)) as ->; [| reflexivity].
    eapply (Get_of_entry c key {| value := r |}). apply stored_after_put.
Qed.

Lemma wrap_above (z : Z) :
  Int64.max < z <= 2 * Int64.max -> Int64.wrap z = z - 2 ^ 64.
Proof.
  unfold Int64.wrap, Int64.max. intros H.
  replace (z + 2 ^ 63) with ((z + 2 ^ 63 - 2 ^ 64) + 1 * 2 ^ 64) by lia.
  rewrite Z_mod_plus_full. rewrite Z.mod_small; lia.
Qed.

(** X19: when the sum of the clock reading and a positive duration exceeds
    the largest [int64], [Put] stores the sum reduced by [2^64]: a negative
    [expiresAt], earlier than the time of writing. *)
Theorem put_overflow_wraps (m : MemoryCache.t) (key : string) (data : any)
    (ttl now : Z) :
  0 <= now <= Int64.max ->
  0 < ttl <= Int64.max ->
  Int64.max < now + ttl ->
  MemoryCache.store (MemoryCache.Put m key data ttl now) !! key
  = Some {| value := data; expiresAt := now + ttl - 2 ^ 64 |} /\
  now + ttl - 2 ^ 64 < 0 /\
  now + ttl - 2 ^ 64 < now.
Proof.
  intros Hnow Httl Hover. rewrite Put_stored.
  destruct (Z.ltb_spec ttl 1); [lia |].
  unfold Int64.add. rewrite wrap_above by (unfold Int64.max in *; lia).
  unfold Int64.max in *. repeat split; lia.
Qed.

Lemma put_overflow_wraps_witness :
  MemoryCache.store
    (MemoryCache.Put MemoryCache.empty "k" (Int 1) Int64.max 1700000000) !! "k"
  = Some {| value := Int 1; expiresAt := 1700000000 + Int64.max - 2 ^ 64 |}.
Proof.
  apply (put_overflow_wraps MemoryCache.empty "k" (Int 1) Int64.max 1700000000);
    unfold Int64.max; lia.
Defined.
